(** * support_ticket: a templated support-request e-mail sent over SMTP

    A shallow embedding of [support_ticket.py].  Python strings are
    modelled as [string] (a sequence of characters compared by
    equality), the process environment as a finite map, the instance
    attributes of the single [SupportTicket] object and the observable
    input/output as an explicit state threaded through a small
    state-and-exception monad.  The outside world (file system, SMTP
    server) is a record of oracles. *)

From Stdlib Require Import ZArith Lia Ascii String List Bool.
From stdpp Require Import gmap strings.

Local Open Scope string_scope.

(** ** Python strings *)

Module PyStr.

(** [s[n:]] *)
Fixpoint drop (n : nat) (s : string) : string :=
  match n, s with
  | S k, String _ s' => drop k s'
  | _, _ => s
  end.

(** [old in s] *)
Fixpoint contains (old s : string) : bool :=
  String.prefix old s ||
  match s with
  | EmptyString => false
  | String _ s' => contains old s'
  end.

(** The scanning loop of [str.replace] for a non-empty pattern: at a
    position where [old] starts, [new] is emitted and the scan resumes
    after the match ([skip] counts the characters of the match that are
    still to be passed over); elsewhere the character is copied. *)
Fixpoint replace_from (old new : string) (skip : nat) (s : string) : string :=
  match s with
  | EmptyString => EmptyString
  | String c s' =>
      match skip with
      | S k => replace_from old new k s'
      | O =>
          if String.prefix old s
          then new +:+ replace_from old new (String.length old - 1) s'
          else String c (replace_from old new 0 s')
      end
  end.

(** For the empty pattern Python inserts [new] before every character
    and at the end. *)
Fixpoint intersperse (new s : string) : string :=
  match s with
  | EmptyString => EmptyString
  | String c s' => String c (new +:+ intersperse new s')
  end.

(** [s.replace(old, new)]: every non-overlapping occurrence of [old],
    found from left to right, is replaced by [new]. *)
Definition replace (old new s : string) : string :=
  match old with
  | EmptyString => new +:+ intersperse new s
  | String _ _ => replace_from old new 0 s
  end.

(** The non-empty suffixes of a string, longest first. *)
Fixpoint suffixes (s : string) : list string :=
  match s with
  | EmptyString => []
  | String _ s' => s :: suffixes s'
  end.

(** [overlap v w]: the strings [v] and [w] can be laid over one another,
    that is, one contains the other or a non-empty end of one is a
    beginning of the other.  The empty string overlaps every non-empty
    one. *)
Definition overlap (v w : string) : bool :=
  existsb (fun y => String.prefix y v || String.prefix v y) (suffixes w) ||
  existsb (fun z => String.prefix w z || String.prefix z w) (suffixes v).

End PyStr.

(** ** The renderer *)

Definition STORE_NUMBER : string := "STORE_NUMBER".
Definition SUPPORT_MESSAGE : string := "SUPPORT_MESSAGE".

(** The two chained substitutions of [_get_body], applied to the text
    read from the template file. *)
Definition render (template store_number message : string) : string :=
  PyStr.replace SUPPORT_MESSAGE message
    (PyStr.replace STORE_NUMBER store_number template).

(** ** Built-in conversions *)

Module Builtins.

Definition is_space (c : ascii) : bool :=
  let n := nat_of_ascii c in
  ((9 <=? n)%nat && (n <=? 13)%nat) || ((28 <=? n)%nat && (n <=? 32)%nat).

Definition is_digit (c : ascii) : bool :=
  let n := nat_of_ascii c in (48 <=? n)%nat && (n <=? 57)%nat.

Definition digit_value (c : ascii) : Z := Z.of_nat (nat_of_ascii c - 48).

Fixpoint lstrip (s : string) : string :=
  match s with
  | String c s' => if is_space c then lstrip s' else s
  | EmptyString => EmptyString
  end.

Fixpoint rstrip (s : string) : string :=
  match s with
  | EmptyString => EmptyString
  | String c s' =>
      match rstrip s' with
      | EmptyString => if is_space c then EmptyString else String c EmptyString
      | r => String c r
      end
  end.

(** Decimal digits, single underscores allowed between two digits.
    [acc] is the value read so far, [count] the number of digits read and
    [after_digit] tells whether the previous character was a digit. *)
Fixpoint parse_digits (acc : Z) (count : nat) (after_digit : bool)
    (s : string) : option (Z * nat) :=
  match s with
  | EmptyString => if after_digit then Some (acc, count) else None
  | String c s' =>
      if is_digit c
      then parse_digits (10 * acc + digit_value c) (S count) true s'
      else if Ascii.eqb c "_" && after_digit
           then parse_digits acc count false s'
           else None
  end.

(** The default of [sys.get_int_max_str_digits()]. *)
Definition int_max_str_digits : nat := 4300.

Definition parse_unsigned (s : string) : option Z :=
  match parse_digits 0 0 false s with
  | Some (n, count) => if (count <=? int_max_str_digits)%nat then Some n else None
  | None => None
  end.

(** [int(s)] for a string [s] and base ten: surrounding white space is
    dropped, one sign is allowed; [None] stands for [ValueError].  Only
    ASCII white space and ASCII digits are recognised. *)
Definition int (s : string) : option Z :=
  match lstrip (rstrip s) with
  | String "+" r => parse_unsigned r
  | String "-" r => Z.opp <$> parse_unsigned r
  | t => parse_unsigned t
  end.

Definition hex_digit (n : nat) : ascii :=
  ascii_of_nat (if (n <? 10)%nat then 48 + n else 87 + n).

(** One character inside [repr(s)], [quote] being the delimiter chosen. *)
Definition repr_char (quote c : ascii) : string :=
  let n := nat_of_ascii c in
  if Ascii.eqb c quote || Ascii.eqb c "\" then String "\" (String c EmptyString)
  else if (n =? 9)%nat then "\t"
  else if (n =? 10)%nat then "\n"
  else if (n =? 13)%nat then "\r"
  else if (n <? 32)%nat || (n =? 127)%nat
       then "\x" +:+ String (hex_digit (n / 16)) (String (hex_digit (n mod 16)) EmptyString)
  else String c EmptyString.

Fixpoint repr_body (quote : ascii) (s : string) : string :=
  match s with
  | EmptyString => EmptyString
  | String c s' => repr_char quote c +:+ repr_body quote s'
  end.

Definition double_quote : ascii := ascii_of_nat 34.

Definition has_char (c : ascii) (s : string) : bool :=
  PyStr.contains (String c EmptyString) s.

(** [repr(s)] for a string: single quotes unless the text has a single
    quote and no double quote; characters above 127 are kept as they are. *)
Definition repr (s : string) : string :=
  let quote : ascii :=
    if has_char "'" s && negb (has_char double_quote s) then double_quote else "'"%char in
  String quote (repr_body quote s) +:+ String quote EmptyString.

End Builtins.

(** ** Exceptions *)

(** The exceptions the program can meet.  [LibraryError cls descr] stands
    for any exception (a subclass of [Exception]) raised by [open], by
    reading the file or by [smtplib]; [descr] is its [str()]. *)
Inductive exn : Type :=
  | KeyError (key : string)
  | ValueError (literal : string)
  | AttributeError (name : string)
  | LibraryError (cls descr : string)
  | MissingConfiguration (msg : string)
  | TicketCreationError (msg : string).


Definition is_KeyError (e : exn) : bool :=
  match e with KeyError _ => true | _ => false end.

(** [isinstance(e, Exception)]: every exception of the model. *)
Definition is_Exception (e : exn) : bool := true.

(** [str(e)] *)
Definition str (e : exn) : string :=
  match e with
  | KeyError key => Builtins.repr key
  | ValueError literal =>
      "invalid literal for int() with base 10: "
        +:+ String.substring 0 200 (Builtins.repr literal)
  | AttributeError name =>
      "'SupportTicket' object has no attribute " +:+ Builtins.repr name
  | LibraryError _ descr => descr
  | MissingConfiguration msg => msg
  | TicketCreationError msg => msg
  end.

(** ** The e-mail message *)

(** A [MIMEText] object: its content type, its text and the headers set
    through [msg[name] = value], in order.  The headers the library adds
    on its own (MIME-Version, Content-Transfer-Encoding, the charset
    parameter) are left out. *)
Record MIMEText : Type := {
  content_type : string;
  payload : string;
  headers : list (string * string)
}.

(** [MIMEText(text, subtype)] *)
Definition new_MIMEText (text subtype : string) : MIMEText :=
  {| content_type := "text/" +:+ subtype; payload := text; headers := [] |}.

(** [msg[name] = value] appends a header. *)
Definition set_header (name value : string) (msg : MIMEText) : MIMEText :=
  {| content_type := content_type msg;
     payload := payload msg;
     headers := headers msg ++ [(name, value)] |}.




(** ** The ticket object, the world and the observable events *)

(** The attributes of the [SupportTicket] instance; [None] is an
    attribute that has not been assigned. *)
Record SupportTicket : Type := {
  store_number : option string;
  message : option string;
  email_address : option string;
  email_password : option string;
  smtp_server : option string;
  smtp_port : option Z;
  template_file_path : option string;
  support_team_email : option string
}.

Definition blank : SupportTicket :=
  {| store_number := None; message := None; email_address := None;
     email_password := None; smtp_server := None; smtp_port := None;
     template_file_path := None; support_team_email := None |}.

(** A ticket is fully loaded when the two request attributes and the six
    configuration attributes are set. *)
Definition fully_loaded (t : SupportTicket) : Prop :=
  is_Some (store_number t) ∧ is_Some (message t) ∧
  is_Some (email_address t) ∧ is_Some (email_password t) ∧
  is_Some (smtp_server t) ∧ is_Some (smtp_port t) ∧
  is_Some (template_file_path t) ∧ is_Some (support_team_email t).

(** What a run lets the outside see, call by call: [open(path)] and the
    reading of the file, [smtplib.SMTP_SSL(host, port)] (which connects
    to the server), [smtp.login], [smtp.send_message], the end of the
    [with] block (QUIT and close), and [print]. *)
Inductive event : Type :=
  | EvOpen (path : string)
  | EvConnect (host : string) (port : Z)
  | EvLogin (user password : string)
  | EvSend (msg : MIMEText)
  | EvQuit
  | EvPrint (text : string).

(** The calls that go to the SMTP server. *)
Definition is_network (ev : event) : bool :=
  match ev with
  | EvConnect _ _ | EvLogin _ _ | EvSend _ | EvQuit => true
  | _ => false
  end.

Definition is_file (ev : event) : bool :=
  match ev with EvOpen _ => true | _ => false end.


Definition is_send (ev : event) : bool :=
  match ev with EvSend _ => true | _ => false end.

(** What lies outside the program: the environment (after
    [load_dotenv()]), the file system and the SMTP server.  An oracle
    answers with the exception the operation raises, if any. *)
Record World : Type := {
  environ : gmap string string;
  read_text : string → exn + string;
  smtp_connect : string → Z → option exn;
  smtp_login : string → string → option exn;
  smtp_send : MIMEText → option exn;
  smtp_quit : option exn
}.

(** ** A state and exception monad *)

Record State : Type := {
  self : SupportTicket;
  trace : list event
}.

Inductive result (A : Type) : Type :=
  | Ok (a : A)
  | Raise (e : exn).
Arguments Ok {A} a.
Arguments Raise {A} e.

Definition M (A : Type) : Type := State → State * result A.

#[export] Instance M_ret : MRet M := λ A a st, (st, Ok a).

#[export] Instance M_bind : MBind M := λ A B f m st,
  match m st with
  | (st', Ok a) => f a st'
  | (st', Raise e) => (st', Raise e)
  end.

Definition raise {A : Type} (e : exn) : M A := λ st, (st, Raise e).

(** [try: body / except <catches> as e: handler e] *)
Definition try_except {A : Type} (body : M A) (catches : exn → bool)
    (handler : exn → M A) : M A := λ st,
  match body st with
  | (st', Raise e) => if catches e then handler e st' else (st', Raise e)
  | r => r
  end.

(** [with <entered> as smtp: body]: the exit of the context manager runs
    whether [body] returned or raised, and an exception of the exit takes
    the place of the one of the body. *)
Definition with_exit {A : Type} (body : M A) (exit : M unit) : M A := λ st,
  match body st with
  | (st', r) =>
      match exit st' with
      | (st'', Ok _) => (st'', r)
      | (st'', Raise e) => (st'', Raise e)
      end
  end.

Definition emit (ev : event) : M unit := λ st,
  ({| self := self st; trace := trace st ++ [ev] |}, Ok ()).

(** [self.<name>] *)
Definition attr {A : Type} (name : string) (field : SupportTicket → option A)
    : M A := λ st,
  match field (self st) with
  | Some v => (st, Ok v)
  | None => (st, Raise (AttributeError name))
  end.

(** [self.<name> = v] *)
Definition assign (update : SupportTicket → SupportTicket) : M unit := λ st,
  ({| self := update (self st); trace := trace st |}, Ok ()).

Definition lift_oracle (o : option exn) : M unit :=
  match o with
  | Some e => raise e
  | None => mret ()
  end.

(** ** Attribute assignment *)

Definition set_store_number (v : string) (t : SupportTicket) : SupportTicket :=
  {| store_number := Some v; message := message t;
     email_address := email_address t; email_password := email_password t;
     smtp_server := smtp_server t; smtp_port := smtp_port t;
     template_file_path := template_file_path t;
     support_team_email := support_team_email t |}.

Definition set_message (v : string) (t : SupportTicket) : SupportTicket :=
  {| store_number := store_number t; message := Some v;
     email_address := email_address t; email_password := email_password t;
     smtp_server := smtp_server t; smtp_port := smtp_port t;
     template_file_path := template_file_path t;
     support_team_email := support_team_email t |}.

Definition set_email_address (v : string) (t : SupportTicket) : SupportTicket :=
  {| store_number := store_number t; message := message t;
     email_address := Some v; email_password := email_password t;
     smtp_server := smtp_server t; smtp_port := smtp_port t;
     template_file_path := template_file_path t;
     support_team_email := support_team_email t |}.

Definition set_email_password (v : string) (t : SupportTicket) : SupportTicket :=
  {| store_number := store_number t; message := message t;
     email_address := email_address t; email_password := Some v;
     smtp_server := smtp_server t; smtp_port := smtp_port t;
     template_file_path := template_file_path t;
     support_team_email := support_team_email t |}.

Definition set_smtp_server (v : string) (t : SupportTicket) : SupportTicket :=
  {| store_number := store_number t; message := message t;
     email_address := email_address t; email_password := email_password t;
     smtp_server := Some v; smtp_port := smtp_port t;
     template_file_path := template_file_path t;
     support_team_email := support_team_email t |}.

Definition set_smtp_port (v : Z) (t : SupportTicket) : SupportTicket :=
  {| store_number := store_number t; message := message t;
     email_address := email_address t; email_password := email_password t;
     smtp_server := smtp_server t; smtp_port := Some v;
     template_file_path := template_file_path t;
     support_team_email := support_team_email t |}.

Definition set_template_file_path (v : string) (t : SupportTicket) : SupportTicket :=
  {| store_number := store_number t; message := message t;
     email_address := email_address t; email_password := email_password t;
     smtp_server := smtp_server t; smtp_port := smtp_port t;
     template_file_path := Some v;
     support_team_email := support_team_email t |}.

Definition set_support_team_email (v : string) (t : SupportTicket) : SupportTicket :=
  {| store_number := store_number t; message := message t;
     email_address := email_address t; email_password := email_password t;
     smtp_server := smtp_server t; smtp_port := smtp_port t;
     template_file_path := template_file_path t;
     support_team_email := Some v |}.

(** ** The program *)

Section Program.

Variable w : World.

(** [os.environ[key]] *)
Definition os_environ (key : string) : M string :=
  match environ w !! key with
  | Some v => mret v
  | None => raise (KeyError key)
  end.

(** [int(s)] *)
Definition int (s : string) : M Z :=
  match Builtins.int s with
  | Some n => mret n
  | None => raise (ValueError s)
  end.

(** [with open(path, "r") as f: f.read()] *)
Definition open_read (path : string) : M string :=
  emit (EvOpen path);;
  match read_text w path with
  | inr text => mret text
  | inl e => raise e
  end.

(** [smtplib.SMTP_SSL(host, port)] *)
Definition SMTP_SSL (host : string) (port : Z) : M unit :=
  emit (EvConnect host port);; lift_oracle (smtp_connect w host port).

(** [smtp.login(user, password)] *)
Definition login (user password : string) : M unit :=
  emit (EvLogin user password);; lift_oracle (smtp_login w user password).

(** [smtp.send_message(msg)] *)
Definition send_message (msg : MIMEText) : M unit :=
  emit (EvSend msg);; lift_oracle (smtp_send w msg).

(** [smtp.__exit__]: QUIT and close. *)
Definition smtp_exit : M unit :=
  emit EvQuit;; lift_oracle (smtp_quit w).


Definition _get_env_variables : M unit :=
  try_except
    (v ← os_environ "EMAIL_ADDRESS"; assign (set_email_address v);;
     v ← os_environ "EMAIL_PASSWORD"; assign (set_email_password v);;
     v ← os_environ "SMTP_SERVER"; assign (set_smtp_server v);;
     v ← os_environ "SMTP_PORT"; n ← int v; assign (set_smtp_port n);;
     v ← os_environ "TEMPLATE_FILE_PATH"; assign (set_template_file_path v);;
     v ← os_environ "SUPPORT_TEAM_EMAIL"; assign (set_support_team_email v))
    is_KeyError
    (λ e, raise (MissingConfiguration ("Missing configuration variable: " +:+ str e))).

Definition __init__ (store_number' message' : string) : M unit :=
  assign (set_store_number store_number');;
  assign (set_message message');;
  _get_env_variables.

Definition _get_body : M string :=
  path ← attr "template_file_path" template_file_path;
  template ← open_read path;
  number ← attr "store_number" store_number;
  let body := PyStr.replace STORE_NUMBER number template in
  text ← attr "message" message;
  let body := PyStr.replace SUPPORT_MESSAGE text body in
  mret body.

Definition _get_subject : M string :=
  number ← attr "store_number" store_number;
  let subject := "Request support for store " +:+ number in
  mret subject.

Definition _get_message : M MIMEText :=
  body ← _get_body;
  let msg := new_MIMEText body "html" in
  from ← attr "email_address" email_address;
  let msg := set_header "From" from msg in
  to ← attr "support_team_email" support_team_email;
  let msg := set_header "To" to msg in
  subject ← _get_subject;
  let msg := set_header "Subject" subject msg in
  mret msg.

Definition create : M unit :=
  try_except
    (host ← attr "smtp_server" smtp_server;
     port ← attr "smtp_port" smtp_port;
     SMTP_SSL host port;;
     with_exit
       (user ← attr "email_address" email_address;
        password ← attr "email_password" email_password;
        login user password;;
        msg ← _get_message;
        send_message msg)
       smtp_exit)
    is_Exception
    (λ e, raise (TicketCreationError ("Unable to send email: " +:+ str e))).


End Program.

(** The state a run starts from: the object has no attribute yet and
    nothing has been observed. *)
Definition initial : State := {| self := blank; trace := [] |}.



(** ** The specification's reading of the renderer

    The definitions of this section follow the words of the
    specification, to be compared with [render]: a template is cut into
    its tokens and the characters between them, and every token is
    exchanged for the value supplied, in one pass. *)

Inductive piece : Type :=
  | Lit (c : ascii)
  | StoreToken
  | MessageToken.

(** The pieces of a template, read from left to right ([skip] counts the
    characters of the token just recognised that are still to be passed
    over). *)
Fixpoint tokenize_from (skip : nat) (s : string) : list piece :=
  match s with
  | EmptyString => []
  | String c s' =>
      match skip with
      | S k => tokenize_from k s'
      | O =>
          if String.prefix STORE_NUMBER s
          then StoreToken :: tokenize_from (String.length STORE_NUMBER - 1) s'
          else if String.prefix SUPPORT_MESSAGE s
          then MessageToken :: tokenize_from (String.length SUPPORT_MESSAGE - 1) s'
          else Lit c :: tokenize_from 0 s'
      end
  end.

Definition tokenize (template : string) : list piece := tokenize_from 0 template.

(** The text of a sequence of pieces in which the tokens stand for
    [store] and [msg]. *)
Fixpoint instantiate (store msg : string) (ps : list piece) : string :=
  match ps with
  | [] => EmptyString
  | Lit c :: ps' => String c (instantiate store msg ps')
  | StoreToken :: ps' => store +:+ instantiate store msg ps'
  | MessageToken :: ps' => msg +:+ instantiate store msg ps'
  end.

(** The template a sequence of pieces was cut from. *)
Definition template_text (ps : list piece) : string :=
  instantiate STORE_NUMBER SUPPORT_MESSAGE ps.

(** A value can stand for a token when it overlaps neither token. *)
Definition plain (v : string) : bool :=
  negb (PyStr.overlap v STORE_NUMBER) && negb (PyStr.overlap v SUPPORT_MESSAGE).




(** ** Sample worlds *)

(** What [open] raises for a path that names no file. *)
Definition file_not_found (path : string) : exn :=
  LibraryError "FileNotFoundError"
    ("[Errno 2] No such file or directory: " +:+ Builtins.repr path).

(** A world with the given environment and files, in which the SMTP
    server accepts everything. *)
Definition friendly (env files : gmap string string) : World :=
  {| environ := env;
     read_text := λ path,
       match files !! path with
       | Some text => inr text
       | None => inl (file_not_found path)
       end;
     smtp_connect := λ _ _, None;
     smtp_login := λ _ _, None;
     smtp_send := λ _, None;
     smtp_quit := None |}.


Definition sample_environ : gmap string string :=
  <["EMAIL_ADDRESS" := "desk@example.com"]>
  (<["EMAIL_PASSWORD" := "secret"]>
  (<["SMTP_SERVER" := "smtp.example.com"]>
  (<["SMTP_PORT" := "465"]>
  (<["TEMPLATE_FILE_PATH" := "template.html"]>
  (<["SUPPORT_TEAM_EMAIL" := "support@example.com"]> ∅))))).

Definition sample_files : gmap string string :=
  <["template.html" := "Store: STORE_NUMBER, Msg: SUPPORT_MESSAGE"]> ∅.

(** The ticket object [__init__] builds in the sample environment. *)
Definition sample_ticket (number text : string) : SupportTicket :=
  {| store_number := Some number; message := Some text;
     email_address := Some "desk@example.com"; email_password := Some "secret";
     smtp_server := Some "smtp.example.com"; smtp_port := Some 465%Z;
     template_file_path := Some "template.html";
     support_team_email := Some "support@example.com" |}.

Definition sample_state (number text : string) : State :=
  {| self := sample_ticket number text; trace := [] |}.

(** ** Notions used in the statements *)

(** The ticket whose attributes hold the given values. *)
Definition loaded (number text from password host : string) (port : Z)
    (path to : string) : SupportTicket :=
  {| store_number := Some number; message := Some text;
     email_address := Some from; email_password := Some password;
     smtp_server := Some host; smtp_port := Some port;
     template_file_path := Some path; support_team_email := Some to |}.

(** The message [_get_message] puts together from a rendered body. *)
Definition composed (body from to number : string) : MIMEText :=
  set_header "Subject" ("Request support for store " +:+ number)
    (set_header "To" to (set_header "From" from (new_MIMEText body "html"))).

(** What [create] raises for the exception [e] it has caught. *)
Definition wrapped (e : exn) : exn :=
  TicketCreationError ("Unable to send email: " +:+ str e).


(** The sample environment with a port that is no number, and the same
    without the path of the template. *)
Definition port_abc_environ : gmap string string :=
  <["SMTP_PORT" := "abc"]> sample_environ.




(** The two placeholders of a template. *)
Definition token (w : string) : Prop := w = STORE_NUMBER ∨ w = SUPPORT_MESSAGE.

(** * Proofs *)

Import PyStr.

#[local] Arguments String.append !s1 s2 : simpl nomatch.

(** ** Facts about strings *)

Section StringFacts.

Lemma app_assoc_s (a b c : string) : (a +:+ b) +:+ c = a +:+ (b +:+ c).
Proof. induction a as [|x a IH]; simpl; [reflexivity | now rewrite IH]. Qed.

Lemma app_empty_r (a : string) : a +:+ "" = a.
Proof. induction a as [|x a IH]; simpl; [reflexivity | now rewrite IH]. Qed.

Lemma length_app_s (a b : string) :
  String.length (a +:+ b) = String.length a + String.length b.
Proof. induction a as [|x a IH]; simpl; [reflexivity | now rewrite IH]. Qed.

Lemma prefix_spec (p s : string) :
  String.prefix p s = true ↔ ∃ r, s = p +:+ r.
Proof.
  revert s. induction p as [|a p IH]; intros s; simpl.
  - split; [intros _; now exists s | now destruct s].
  - destruct s as [|b s].
    + split; [discriminate | intros [r Hr]; discriminate].
    + simpl. destruct (Ascii.ascii_dec a b) as [->|Hab].
      * rewrite IH. split; intros [r Hr]; exists r; [now rewrite Hr | now inversion Hr].
      * split; [discriminate | intros [r Hr]; simpl in Hr; congruence].
Qed.

Lemma prefix_app (p r : string) : String.prefix p (p +:+ r) = true.
Proof. apply prefix_spec. now exists r. Qed.

Lemma prefix_refl (p : string) : String.prefix p p = true.
Proof. apply prefix_spec. exists "". now rewrite app_empty_r. Qed.

Lemma prefix_weaken (p a b : string) :
  String.prefix p a = true → String.prefix p (a +:+ b) = true.
Proof.
  rewrite !prefix_spec. intros [r ->]. exists (r +:+ b). apply app_assoc_s.
Qed.

(** A prefix of [a +:+ b] lies within [a] or runs over all of [a]. *)
Lemma prefix_of_app (p a b : string) :
  String.prefix p (a +:+ b) = true →
  String.prefix p a = true ∨
  ∃ q, q ≠ "" ∧ p = a +:+ q ∧ String.prefix q b = true.
Proof.
  revert a. induction p as [|x p IH]; intros a H.
  - left. now destruct a.
  - destruct a as [|y a].
    + right. exists (String x p). now repeat split.
    + simpl in H |- *. destruct (Ascii.ascii_dec x y) as [->|Hxy]; [|discriminate].
      destruct (IH a H) as [Hl | (q & Hq & -> & Hb)]; [now left|].
      right. exists q. now repeat split.
Qed.

Lemma drop_app (p r : string) : drop (String.length p) (p +:+ r) = r.
Proof. induction p as [|a p IH]; simpl; [now destruct r | exact IH]. Qed.

Lemma in_suffixes (y w : string) :
  In y (suffixes w) ↔ y ≠ "" ∧ ∃ x, w = x +:+ y.
Proof.
  induction w as [|a w IH]; simpl.
  - split; [contradiction|]. intros [Hy [x Hx]].
    destruct x; simpl in Hx; [now subst | discriminate].
  - rewrite IH. split.
    + intros [<- | [Hy [x ->]]].
      * split; [discriminate | now exists ""].
      * split; [assumption | now exists (String a x)].
    + intros [Hy [x Hx]]. destruct x as [|b x]; simpl in Hx.
      * now left.
      * right. inversion Hx; subst. split; [assumption | now exists x].
Qed.

Lemma contains_spec (w s : string) :
  contains w s = true ↔ ∃ x z, s = x +:+ z ∧ String.prefix w z = true.
Proof.
  induction s as [|a s IH].
  - simpl. rewrite orb_false_r. split.
    + intros H. now exists "", "".
    + intros (x & z & Hs & Hp). destruct x, z; simpl in Hs; try discriminate.
      exact Hp.
  - cbn [contains]. rewrite orb_true_iff, IH. split.
    + intros [H | (x & z & -> & Hp)].
      * now exists "", (String a s).
      * now exists (String a x), z.
    + intros (x & z & Hs & Hp). destruct x as [|b x]; simpl in Hs.
      * left. now subst.
      * right. inversion Hs; subst. now exists x, z.
Qed.

End StringFacts.

(** ** Facts about [replace] *)

Section ReplaceFacts.

Variables old new : string.
Hypothesis old_nonempty : old ≠ "".

Lemma replace_nonempty (s : string) :
  replace old new s = replace_from old new 0 s.
Proof. unfold replace. destruct old; [contradiction | reflexivity]. Qed.

Lemma replace_from_skip (k : nat) (s : string) :
  (k ≤ String.length s)%nat →
  replace_from old new k s = replace_from old new 0 (drop k s).
Proof.
  revert s. induction k as [|k IH]; intros s Hk.
  - now destruct s.
  - destruct s as [|c s]; simpl in Hk; [lia|].
    simpl. apply IH. lia.
Qed.

Lemma replace_hit (r : string) :
  replace old new (old +:+ r) = new +:+ replace old new r.
Proof.
  rewrite !replace_nonempty.
  destruct old as [|a o] eqn:E; [contradiction|]. rewrite <- E.
  assert (Hs : old +:+ r = String a (o +:+ r)) by now rewrite E.
  assert (Hp := prefix_app old r). rewrite Hs in Hp |- *.
  cbn [replace_from]. rewrite Hp. f_equal.
  assert (Hl : String.length old - 1 = String.length o) by (rewrite E; simpl; lia).
  rewrite Hl, replace_from_skip, drop_app; [reflexivity | rewrite length_app_s; lia].
Qed.

Lemma replace_miss (c : ascii) (s : string) :
  String.prefix old (String c s) = false →
  replace old new (String c s) = String c (replace old new s).
Proof.
  intros H. rewrite !replace_nonempty. cbn [replace_from]. now rewrite H.
Qed.

Lemma replace_empty : replace old new "" = "".
Proof. now rewrite replace_nonempty. Qed.

(** Nothing is changed in a string that does not contain the pattern. *)
Lemma replace_absent (s : string) :
  contains old s = false → replace old new s = s.
Proof.
  induction s as [|c s IH]; intros H.
  - apply replace_empty.
  - cbn [contains] in H. apply orb_false_iff in H as [H1 H2].
    rewrite replace_miss by exact H1. now rewrite IH.
Qed.

(** [replace] distributes over a concatenation no occurrence of the
    pattern runs across. *)
Lemma replace_app (a b : string) :
  (∀ p q, In p (suffixes a) → q ≠ "" → old = p +:+ q →
          String.prefix q b = true → False) →
  replace old new (a +:+ b) = replace old new a +:+ replace old new b.
Proof.
  remember (String.length a) as n eqn:Hn. revert a Hn.
  induction n as [n IH] using lt_wf_ind. intros a Hn Hcross.
  destruct a as [|c a].
  - now rewrite replace_empty.
  - destruct (String.prefix old (String c a +:+ b)) eqn:Hp.
    + apply prefix_of_app in Hp as [Hp | (q & Hq & Hold & Hb)].
      * apply prefix_spec in Hp as [r Hr]. rewrite Hr, app_assoc_s, !replace_hit.
        rewrite app_assoc_s. f_equal.
        assert (Hlen : (String.length r < n)%nat).
        { subst n. rewrite Hr, length_app_s. destruct old; [contradiction|simpl; lia]. }
        apply (IH _ Hlen r eq_refl).
        intros p q Hin. apply Hcross. apply in_suffixes.
        apply in_suffixes in Hin as [Hne [x ->]]. split; [assumption|].
        exists (old +:+ x). now rewrite Hr, app_assoc_s.
      * exfalso. apply (Hcross (String c a) q); try assumption. now left.
    + assert (Hp' : String.prefix old (String c a) = false).
      { destruct (String.prefix old (String c a)) eqn:E; [|reflexivity].
        now rewrite (prefix_weaken _ _ b E) in Hp. }
      change (String c a +:+ b) with (String c (a +:+ b)) in Hp |- *.
      rewrite !replace_miss by assumption.
      change (String c (replace old new a) +:+ replace old new b)
        with (String c (replace old new a +:+ replace old new b)).
      f_equal. apply (IH (String.length a)); [subst n; simpl; lia | reflexivity |].
      intros p q Hin. apply Hcross. now right.
Qed.

End ReplaceFacts.

(** ** Occurrences and overlaps *)

Section OverlapFacts.

Lemma suffixes_tail (d : ascii) (y w : string) :
  In (String d y) (suffixes w) → y = "" ∨ In y (suffixes w).
Proof.
  intros H. apply in_suffixes in H as [_ [x Hx]].
  destruct y as [|e y]; [now left | right].
  apply in_suffixes. split; [discriminate|].
  exists (x +:+ String d ""). now rewrite app_assoc_s.
Qed.

Lemma suffixes_self (w : string) : w ≠ "" → In w (suffixes w).
Proof. destruct w; [contradiction | now left]. Qed.

(** An occurrence in [a +:+ b] lies in [a], lies in [b], or runs across. *)
Lemma contains_of_app (w a b : string) :
  contains w (a +:+ b) = true →
  contains w a = true ∨ contains w b = true ∨
  ∃ p q, In p (suffixes a) ∧ q ≠ "" ∧ w = p +:+ q ∧ String.prefix q b = true.
Proof.
  induction a as [|c a IH]; intros H.
  - right. now left.
  - change (String c a +:+ b) with (String c (a +:+ b)) in H.
    cbn [contains] in H. apply orb_true_iff in H as [H | H].
    + change (String c (a +:+ b)) with (String c a +:+ b) in H.
      apply prefix_of_app in H as [H | (q & Hq & Hw & Hb)].
      * left. cbn [contains]. now rewrite H.
      * right. right. exists (String c a), q. repeat split; try assumption. now left.
    + destruct (IH H) as [Ha | [Hb | (p & q & Hin & Hq & Hw & Hb)]].
      * left. cbn [contains]. rewrite Ha. apply orb_true_r.
      * right. now left.
      * right. right. exists p, q. repeat split; try assumption. now right.
Qed.

Lemma existsb_false {A : Type} (f : A → bool) (l : list A) (x : A) :
  existsb f l = false → In x l → f x = false.
Proof.
  intros H Hin. destruct (f x) eqn:E; [|reflexivity].
  assert (existsb f l = true) by (apply existsb_exists; eauto). congruence.
Qed.

Variables v w : string.
Hypothesis apart : overlap v w = false.

Lemma overlap_end_of_token (y : string) :
  In y (suffixes w) → String.prefix y v = false ∧ String.prefix v y = false.
Proof.
  intros Hin. unfold overlap in apart. apply orb_false_iff in apart as [H _].
  apply (existsb_false _ _ _ H) in Hin. now apply orb_false_iff in Hin.
Qed.

Lemma overlap_end_of_value (z : string) :
  In z (suffixes v) → String.prefix w z = false ∧ String.prefix z w = false.
Proof.
  intros Hin. unfold overlap in apart. apply orb_false_iff in apart as [_ H].
  apply (existsb_false _ _ _ H) in Hin. now apply orb_false_iff in Hin.
Qed.

Lemma overlap_not_contained : w ≠ "" → contains w v = false.
Proof.
  intros Hw. destruct (contains w v) eqn:E; [|reflexivity].
  apply contains_spec in E as (x & z & Hv & Hp).
  destruct z as [|c z].
  - destruct w; [contradiction | discriminate].
  - assert (Hin : In (String c z) (suffixes v))
      by (apply in_suffixes; split; [discriminate | now exists x]).
    apply overlap_end_of_value in Hin as [Hin _]. congruence.
Qed.

(** No token that meets the value ends or begins inside it. *)
Lemma overlap_no_prefix (y r : string) :
  In y (suffixes w) → String.prefix y (v +:+ r) = false.
Proof.
  intros Hin. destruct (String.prefix y (v +:+ r)) eqn:E; [|reflexivity].
  destruct (overlap_end_of_token y Hin) as [H1 H2].
  apply prefix_of_app in E as [E | (q & _ & Hy & _)]; [congruence|].
  rewrite Hy, prefix_app in H2. discriminate.
Qed.

End OverlapFacts.

(** ** The two tokens *)

Section TokenFacts.

Lemma STORE_NUMBER_nonempty : STORE_NUMBER ≠ "".
Proof. discriminate. Qed.

Lemma SUPPORT_MESSAGE_nonempty : SUPPORT_MESSAGE ≠ "".
Proof. discriminate. Qed.

Lemma token_nonempty (w : string) : token w → w ≠ "".
Proof. intros [-> | ->]; discriminate. Qed.

(** The tokens have no border and do not overlap one another: where an
    end of a token starts a text that begins with a token, it is that
    token. *)
Lemma token_meets (w tok y r : string) :
  token w → token tok → In y (suffixes w) →
  String.prefix y (tok +:+ r) = true → y = tok.
Proof.
  intros [-> | ->] [-> | ->] Hin H; unfold STORE_NUMBER, SUPPORT_MESSAGE in *;
    simpl in Hin;
    repeat (destruct Hin as [<- | Hin];
            [first [reflexivity | vm_compute in H; discriminate] |]);
    contradiction.
Qed.

Lemma message_after_store (r : string) :
  String.prefix STORE_NUMBER (SUPPORT_MESSAGE +:+ r) = false.
Proof. reflexivity. Qed.

(** Replacing a token leaves the other token alone. *)
Lemma replace_store_over_message (new r : string) :
  replace STORE_NUMBER new (SUPPORT_MESSAGE +:+ r) =
  SUPPORT_MESSAGE +:+ replace STORE_NUMBER new r.
Proof.
  rewrite replace_app.
  - now rewrite (replace_absent STORE_NUMBER new STORE_NUMBER_nonempty SUPPORT_MESSAGE).
  - exact STORE_NUMBER_nonempty.
  - intros p q Hin Hq Hold _.
    assert (Hp : String.prefix p (STORE_NUMBER +:+ "") = true)
      by (rewrite Hold, app_assoc_s; apply prefix_app).
    apply (token_meets SUPPORT_MESSAGE STORE_NUMBER) in Hp;
      [| now right | now left | assumption].
    subst p. apply (f_equal String.length) in Hold.
    rewrite length_app_s in Hold. destruct q; [contradiction | simpl in Hold; lia].
Qed.

(** A token in the text is replaced whatever stands around it. *)
Lemma replace_around (tok new a b : string) :
  token tok →
  replace tok new (a +:+ tok +:+ b) =
  replace tok new a +:+ new +:+ replace tok new b.
Proof.
  intros Htok. pose proof (token_nonempty tok Htok) as Hne.
  rewrite replace_app.
  - now rewrite replace_hit.
  - exact Hne.
  - intros p q Hin Hq Hold Hb.
    assert (Hq' : In q (suffixes tok))
      by (apply in_suffixes; split; [assumption | now exists p]).
    apply (token_meets tok tok q b Htok Htok Hq') in Hb. subst q.
    apply in_suffixes in Hin as [Hp _].
    apply (f_equal String.length) in Hold. rewrite length_app_s in Hold.
    destruct p; [contradiction | simpl in Hold; lia].
Qed.

Lemma tokenize_from_skip (k : nat) (s : string) :
  (k ≤ String.length s)%nat → tokenize_from k s = tokenize_from 0 (drop k s).
Proof.
  revert s. induction k as [|k IH]; intros s Hk.
  - now destruct s.
  - destruct s as [|c s]; simpl in Hk; [lia|]. simpl. apply IH. lia.
Qed.

Lemma tokenize_at_store (c : ascii) (s : string) :
  String.prefix STORE_NUMBER (String c s) = true →
  tokenize (String c s) = StoreToken :: tokenize (drop 11 s).
Proof.
  intros H. unfold tokenize. cbn [tokenize_from]. rewrite H.
  apply (f_equal (cons StoreToken)), tokenize_from_skip.
  apply prefix_spec in H as [r Hr]. apply (f_equal String.length) in Hr.
  rewrite length_app_s in Hr. simpl in Hr. lia.
Qed.

Lemma tokenize_at_message (c : ascii) (s : string) :
  String.prefix STORE_NUMBER (String c s) = false →
  String.prefix SUPPORT_MESSAGE (String c s) = true →
  tokenize (String c s) = MessageToken :: tokenize (drop 14 s).
Proof.
  intros H0 H. unfold tokenize. cbn [tokenize_from]. rewrite H0, H.
  apply (f_equal (cons MessageToken)), tokenize_from_skip.
  apply prefix_spec in H as [r Hr]. apply (f_equal String.length) in Hr.
  rewrite length_app_s in Hr. simpl in Hr. lia.
Qed.

Lemma tokenize_store (r : string) :
  tokenize (STORE_NUMBER +:+ r) = StoreToken :: tokenize r.
Proof.
  pose proof (prefix_app STORE_NUMBER r) as H.
  assert (E : STORE_NUMBER +:+ r = String "S" ("TORE_NUMBER" +:+ r)) by reflexivity.
  rewrite E in H |- *. rewrite (tokenize_at_store _ _ H).
  apply (f_equal (cons StoreToken)), (f_equal tokenize), (drop_app "TORE_NUMBER").
Qed.

Lemma tokenize_message (r : string) :
  tokenize (SUPPORT_MESSAGE +:+ r) = MessageToken :: tokenize r.
Proof.
  pose proof (prefix_app SUPPORT_MESSAGE r) as H.
  pose proof (message_after_store r) as H0.
  assert (E : SUPPORT_MESSAGE +:+ r = String "S" ("UPPORT_MESSAGE" +:+ r)) by reflexivity.
  rewrite E in H, H0 |- *. rewrite (tokenize_at_message _ _ H0 H).
  apply (f_equal (cons MessageToken)), (f_equal tokenize), (drop_app "UPPORT_MESSAGE").
Qed.

Lemma tokenize_lit (c : ascii) (s : string) :
  String.prefix STORE_NUMBER (String c s) = false →
  String.prefix SUPPORT_MESSAGE (String c s) = false →
  tokenize (String c s) = Lit c :: tokenize s.
Proof. intros H1 H2. unfold tokenize. cbn [tokenize_from]. now rewrite H1, H2. Qed.

(** Induction along the pieces of a template. *)
Lemma template_ind (P : string → Prop) :
  P "" →
  (∀ r, P r → P (STORE_NUMBER +:+ r)) →
  (∀ r, P r → P (SUPPORT_MESSAGE +:+ r)) →
  (∀ c s, String.prefix STORE_NUMBER (String c s) = false →
          String.prefix SUPPORT_MESSAGE (String c s) = false →
          P s → P (String c s)) →
  ∀ t, P t.
Proof.
  intros Hnil Hstore Hmsg Hlit t.
  remember (String.length t) as n eqn:Hn. revert t Hn.
  induction n as [n IH] using lt_wf_ind. intros t Hn.
  destruct t as [|c s]; [exact Hnil|].
  destruct (String.prefix STORE_NUMBER (String c s)) eqn:E1.
  { apply prefix_spec in E1 as [r Hr]. rewrite Hr. apply Hstore.
    apply (IH (String.length r)); [|reflexivity].
    subst n. rewrite Hr, length_app_s. simpl. lia. }
  destruct (String.prefix SUPPORT_MESSAGE (String c s)) eqn:E2.
  { apply prefix_spec in E2 as [r Hr]. rewrite Hr. apply Hmsg.
    apply (IH (String.length r)); [|reflexivity].
    subst n. rewrite Hr, length_app_s. simpl. lia. }
  apply Hlit; try assumption.
  apply (IH (String.length s)); [subst n; simpl; lia | reflexivity].
Qed.

(** The pieces of a template spell the template. *)
Lemma template_text_tokenize (t : string) : template_text (tokenize t) = t.
Proof.
  induction t as [|r IH|r IH|c s H1 H2 IH] using template_ind.
  - reflexivity.
  - rewrite tokenize_store. unfold template_text in *. cbn [instantiate]. now rewrite IH.
  - rewrite tokenize_message. unfold template_text in *. cbn [instantiate]. now rewrite IH.
  - rewrite tokenize_lit by assumption. unfold template_text in *. cbn [instantiate].
    now rewrite IH.
Qed.

End TokenFacts.

(** ** The renderer against the specification's reading *)

Section RenderFacts.

Variables store msg : string.

Lemma prefix_cons_inv (d c : ascii) (y s : string) :
  String.prefix (String d y) (String c s) = true → d = c ∧ String.prefix y s = true.
Proof.
  simpl. destruct (Ascii.ascii_dec d c) as [->|]; [now split | discriminate].
Qed.

Lemma prefix_cons (c : ascii) (y s : string) :
  String.prefix y s = true → String.prefix (String c y) (String c s) = true.
Proof. intros H. simpl. now destruct (Ascii.ascii_dec c c). Qed.

(** Where an end of the message token starts the text in which the store
    number has been filled in, it started the template already. *)
Lemma store_filled_prefix :
  overlap store SUPPORT_MESSAGE = false →
  ∀ t y, In y (suffixes SUPPORT_MESSAGE) →
    String.prefix y (replace STORE_NUMBER store t) = true →
    String.prefix y t = true.
Proof.
  intros Hov t.
  induction t as [|r IH|r IH|c s H1 H2 IH] using template_ind; intros y Hin H.
  - now rewrite replace_empty in H by exact STORE_NUMBER_nonempty.
  - rewrite replace_hit in H by exact STORE_NUMBER_nonempty.
    now rewrite (overlap_no_prefix _ _ Hov) in H.
  - rewrite replace_store_over_message in H.
    apply (token_meets SUPPORT_MESSAGE SUPPORT_MESSAGE) in H;
      [| now right | now right | assumption].
    subst y. apply prefix_app.
  - rewrite replace_miss in H by (exact STORE_NUMBER_nonempty || assumption).
    destruct y as [|d y]; [reflexivity|].
    apply prefix_cons_inv in H as [-> H].
    apply prefix_cons. apply suffixes_tail in Hin as [-> | Hin].
    + now destruct s.
    + now apply IH.
Qed.

(** The two chained substitutions fill in the pieces of the template. *)
Lemma render_instantiate (t : string) :
  overlap store SUPPORT_MESSAGE = false →
  render t store msg = instantiate store msg (tokenize t).
Proof.
  intros Hov. unfold render.
  induction t as [|r IH|r IH|c s H1 H2 IH] using template_ind.
  - reflexivity.
  - rewrite tokenize_store, replace_hit by exact STORE_NUMBER_nonempty.
    cbn [instantiate]. rewrite replace_app.
    + rewrite IH. f_equal. apply replace_absent; [exact SUPPORT_MESSAGE_nonempty|].
      apply (overlap_not_contained _ _ Hov), SUPPORT_MESSAGE_nonempty.
    + exact SUPPORT_MESSAGE_nonempty.
    + intros p q Hin _ Hold _.
      destruct (overlap_end_of_value _ _ Hov p Hin) as [_ Hp].
      rewrite Hold, prefix_app in Hp. discriminate.
  - rewrite tokenize_message, replace_store_over_message.
    rewrite replace_hit by exact SUPPORT_MESSAGE_nonempty.
    cbn [instantiate]. now rewrite IH.
  - rewrite tokenize_lit by assumption.
    rewrite replace_miss by (exact STORE_NUMBER_nonempty || assumption).
    rewrite replace_miss.
    + cbn [instantiate]. now rewrite IH.
    + exact SUPPORT_MESSAGE_nonempty.
    + destruct (String.prefix SUPPORT_MESSAGE
                  (String c (replace STORE_NUMBER store s))) eqn:E; [|reflexivity].
      rewrite <- (replace_miss STORE_NUMBER store STORE_NUMBER_nonempty c s H1) in E.
      apply store_filled_prefix in E; [congruence | assumption | now left].
Qed.

Hypothesis store_plain : plain store = true.
Hypothesis msg_plain : plain msg = true.

Lemma plain_overlap (v w : string) : plain v = true → token w → overlap v w = false.
Proof.
  unfold plain. intros H [-> | ->]; apply andb_true_iff in H as [H1 H2];
    [now apply negb_true_iff in H1 | now apply negb_true_iff in H2].
Qed.

(** Where an end of a token starts the filled-in text, it started the
    template already. *)
Lemma filled_prefix (w : string) :
  token w →
  ∀ t y, In y (suffixes w) →
    String.prefix y (instantiate store msg (tokenize t)) = true →
    String.prefix y t = true.
Proof.
  intros Hw t.
  induction t as [|r IH|r IH|c s H1 H2 IH] using template_ind; intros y Hin H.
  - exact H.
  - rewrite tokenize_store in H. cbn [instantiate] in H.
    now rewrite (overlap_no_prefix _ _ (plain_overlap _ _ store_plain Hw)) in H.
  - rewrite tokenize_message in H. cbn [instantiate] in H.
    now rewrite (overlap_no_prefix _ _ (plain_overlap _ _ msg_plain Hw)) in H.
  - rewrite tokenize_lit in H by assumption. cbn [instantiate] in H.
    destruct y as [|d y]; [reflexivity|].
    apply prefix_cons_inv in H as [-> H].
    apply prefix_cons. apply suffixes_tail in Hin as [-> | Hin].
    + now destruct s.
    + now apply IH.
Qed.

(** No token is left in the filled-in text. *)
Lemma filled_token_free (w t : string) :
  token w → contains w (instantiate store msg (tokenize t)) = false.
Proof.
  intros Hw. pose proof (token_nonempty w Hw) as Hne.
  assert (Hvalue : ∀ v r, plain v = true → contains w r = false →
                          contains w (v +:+ r) = false).
  { intros v r Hv Hr. destruct (contains w (v +:+ r)) eqn:E; [|reflexivity].
    pose proof (plain_overlap v w Hv Hw) as Hov.
    apply contains_of_app in E as [E | [E | (p & q & Hin & _ & Hold & _)]].
    - now rewrite (overlap_not_contained _ _ Hov Hne) in E.
    - congruence.
    - destruct (overlap_end_of_value _ _ Hov p Hin) as [_ Hp].
      rewrite Hold, prefix_app in Hp. discriminate. }
  induction t as [|r IH|r IH|c s H1 H2 IH] using template_ind.
  - destruct Hw as [-> | ->]; reflexivity.
  - rewrite tokenize_store. cbn [instantiate]. now apply Hvalue.
  - rewrite tokenize_message. cbn [instantiate]. now apply Hvalue.
  - rewrite tokenize_lit by assumption. cbn [instantiate contains].
    rewrite IH, orb_false_r.
    destruct (String.prefix w (String c (instantiate store msg (tokenize s)))) eqn:E;
      [|reflexivity].
    assert (E' : String.prefix w (instantiate store msg (tokenize (String c s))) = true)
      by (rewrite tokenize_lit by assumption; exact E).
    apply (filled_prefix w Hw) in E'; [|now apply suffixes_self].
    destruct Hw as [-> | ->]; congruence.
Qed.

End RenderFacts.

(** ** Facts about the program *)

Section ProgramFacts.

Variable w : World.

Lemma fully_loaded_inv (t : SupportTicket) :
  fully_loaded t →
  ∃ number text from password host port path to,
    t = loaded number text from password host port path to.
Proof.
  destruct t as [a b c d e f g h]. unfold fully_loaded. simpl.
  intros ([? ->] & [? ->] & [? ->] & [? ->] & [? ->] & [? ->] & [? ->] & [? ->]).
  unfold loaded. repeat eexists.
Qed.

Lemma loaded_fully_loaded number text from password host port path to :
  fully_loaded (loaded number text from password host port path to).
Proof. unfold fully_loaded, loaded. simpl. repeat split; eauto. Qed.

Ltac run_monad :=
  unfold mbind, mret, M_bind, M_ret, raise, try_except, with_exit, emit, attr,
    assign, lift_oracle in *; simpl in *.

Lemma _get_body_ok (st : State) (path template number text : string) :
  template_file_path (self st) = Some path →
  read_text w path = inr template →
  store_number (self st) = Some number →
  message (self st) = Some text →
  _get_body w st =
    ({| self := self st; trace := trace st ++ [EvOpen path] |},
     Ok (render template number text)).
Proof.
  intros Hp Hr Hn Hm. unfold _get_body, open_read. run_monad.
  rewrite Hp. simpl. rewrite Hr. simpl. rewrite Hn. simpl. rewrite Hm. reflexivity.
Qed.





(** [create] on a loaded ticket, spelled out along the answers of the
    world. *)
Lemma create_loaded number text from password host port path to tr :
  create w {| self := loaded number text from password host port path to;
              trace := tr |} =
    let leave (evs : list event) (r : result unit) :=
      ({| self := loaded number text from password host port path to;
          trace := tr ++ evs |}, r) in
    let closing (r : result unit) :=
      match smtp_quit w with
      | Some e => Raise (wrapped e)
      | None => r
      end in
    match smtp_connect w host port with
    | Some e => leave [EvConnect host port] (Raise (wrapped e))
    | None =>
        match smtp_login w from password with
        | Some e =>
            leave [EvConnect host port; EvLogin from password; EvQuit]
              (closing (Raise (wrapped e)))
        | None =>
            match read_text w path with
            | inl e =>
                leave [EvConnect host port; EvLogin from password; EvOpen path; EvQuit]
                  (closing (Raise (wrapped e)))
            | inr template =>
                let msg := composed (render template number text) from to number in
                leave [EvConnect host port; EvLogin from password; EvOpen path;
                       EvSend msg; EvQuit]
                  (closing (match smtp_send w msg with
                            | Some e => Raise (wrapped e)
                            | None => Ok ()
                            end))
            end
        end
    end.
Proof.
  unfold create, SMTP_SSL, login, send_message, smtp_exit, _get_message, _get_body,
    _get_subject, open_read, wrapped. run_monad.
  destruct (smtp_connect w host port); simpl; [reflexivity|].
  destruct (smtp_login w from password); simpl.
  { destruct (smtp_quit w); simpl; now rewrite <- !app_assoc. }
  destruct (read_text w path) as [e|template]; simpl.
  { destruct (smtp_quit w); simpl; now rewrite <- !app_assoc. }
  fold (composed (render template number text) from to number).
  destruct (smtp_send w _); simpl;
    destruct (smtp_quit w); simpl; now rewrite <- !app_assoc.
Qed.

(** Replacing the store token passes over a message token. *)
Lemma replace_store_around_message (new pre post : string) :
  replace STORE_NUMBER new (pre +:+ SUPPORT_MESSAGE +:+ post) =
  replace STORE_NUMBER new pre +:+ SUPPORT_MESSAGE +:+ replace STORE_NUMBER new post.
Proof.
  rewrite replace_app.
  - now rewrite replace_store_over_message.
  - exact STORE_NUMBER_nonempty.
  - intros p q Hin Hq Hold Hb.
    assert (Hq' : In q (suffixes STORE_NUMBER))
      by (apply in_suffixes; split; [assumption | now exists p]).
    apply (token_meets STORE_NUMBER SUPPORT_MESSAGE) in Hb;
      [| now left | now right | assumption].
    subst q. apply (f_equal String.length) in Hold.
    rewrite length_app_s in Hold. simpl in Hold. lia.
Qed.

(** A value that overlaps a token without containing one can still make
    one with the text around it: here the store number "S" completes a
    message token, which the second substitution then replaces. *)
Example token_formed_at_a_junction :
  render "STORE_NUMBERUPPORT_MESSAGE" "S" "hello" = "hello" ∧
  plain "S" = false.
Proof. split; reflexivity. Qed.

(** C9: the template "Store: STORE_NUMBER, Msg: SUPPORT_MESSAGE" with
    store number "42" and message "Printer broken" is rendered as
    "Store: 42, Msg: Printer broken". *)
Theorem example_body (st : State) (path : string) :
  template_file_path (self st) = Some path →
  read_text w path = inr "Store: STORE_NUMBER, Msg: SUPPORT_MESSAGE" →
  store_number (self st) = Some "42" →
  message (self st) = Some "Printer broken" →
  _get_body w st =
    ({| self := self st; trace := trace st ++ [EvOpen path] |},
     Ok "Store: 42, Msg: Printer broken").
Proof.
  intros Hp Hr Hn Hm. now rewrite (_get_body_ok st path _ _ _ Hp Hr Hn Hm).
Qed.

(** C1, as amended: when the store number and the message overlap
    neither token, the body holds no token any more, and it is the
    template with the store number in the place of every STORE_NUMBER
    and the message in the place of every SUPPORT_MESSAGE. *)
Theorem body_tokens_filled (st : State) (path template number text : string) :
  template_file_path (self st) = Some path →
  read_text w path = inr template →
  store_number (self st) = Some number →
  message (self st) = Some text →
  plain number = true →
  plain text = true →
  ∃ body,
    _get_body w st = ({| self := self st; trace := trace st ++ [EvOpen path] |}, Ok body) ∧
    contains STORE_NUMBER body = false ∧
    contains SUPPORT_MESSAGE body = false ∧
    template_text (tokenize template) = template ∧
    body = instantiate number text (tokenize template).
Proof.
  intros Hp Hr Hn Hm Hnumber Htext. exists (render template number text).
  split; [now apply _get_body_ok|].
  rewrite (render_instantiate number text template)
    by (apply plain_overlap; [assumption | now right]).
  repeat split.
  - apply filled_token_free; [assumption.. | now left].
  - apply filled_token_free; [assumption.. | now right].
  - apply template_text_tokenize.
Qed.

(** C10: the substitutions are made one after the other.  A
    SUPPORT_MESSAGE inside the store number is replaced by the message
    in its turn; the message itself is put in as it is, a STORE_NUMBER
    inside it included. *)
Theorem substitutions_in_sequence (st : State) (path template number text : string) :
  template_file_path (self st) = Some path →
  read_text w path = inr template →
  store_number (self st) = Some number →
  message (self st) = Some text →
  ∃ body,
    _get_body w st = ({| self := self st; trace := trace st ++ [EvOpen path] |}, Ok body) ∧
    body = replace SUPPORT_MESSAGE text (replace STORE_NUMBER number template) ∧
    (∀ pre post a b,
       template = pre +:+ STORE_NUMBER +:+ post →
       number = a +:+ SUPPORT_MESSAGE +:+ b →
       body = replace SUPPORT_MESSAGE text (replace STORE_NUMBER number pre +:+ a)
              +:+ text
              +:+ replace SUPPORT_MESSAGE text (b +:+ replace STORE_NUMBER number post)) ∧
    (∀ pre post,
       template = pre +:+ SUPPORT_MESSAGE +:+ post →
       body = render pre number text +:+ text +:+ render post number text).
Proof.
  intros Hp Hr Hn Hm. exists (render template number text).
  split; [now apply _get_body_ok|]. split; [reflexivity|]. split.
  - intros pre post a b -> Hnum. unfold render.
    rewrite replace_around by now left.
    rewrite Hnum at 2. rewrite !app_assoc_s.
    rewrite <- (app_assoc_s (replace STORE_NUMBER number pre) a).
    now rewrite replace_around by now right.
  - intros pre post ->. unfold render.
    rewrite replace_store_around_message.
    now rewrite replace_around by now right.
Qed.





(** C3, as amended: when the template file cannot be read, [create]
    fails with [TicketCreationError] and no message is sent; the
    connection is attempted first, and the file is opened only once the
    server has been reached and the login accepted. *)
Theorem missing_template (st : State) (host path : string) (port : Z) (e : exn) :
  fully_loaded (self st) →
  smtp_server (self st) = Some host →
  smtp_port (self st) = Some port →
  template_file_path (self st) = Some path →
  read_text w path = inl e →
  ∃ evs cause,
    create w st = ({| self := self st; trace := trace st ++ evs |},
                   Raise (TicketCreationError ("Unable to send email: " +:+ str cause))) ∧
    head evs = Some (EvConnect host port) ∧
    existsb is_send evs = false ∧
    (existsb is_file evs = true →
       smtp_connect w host port = None ∧
       ∃ user password,
         smtp_login w user password = None ∧
         evs = [EvConnect host port; EvLogin user password; EvOpen path; EvQuit]).
Proof.
  intros Hst Hh Hp Hpath Hr. destruct st as [t tr]. simpl in *.
  apply fully_loaded_inv in Hst as (n & x & f & pw & h & p & pa & o & ->).
  simpl in *. injection Hh as ->. injection Hp as ->. injection Hpath as ->.
  rewrite create_loaded. cbv zeta. rewrite Hr.
  destruct (smtp_connect w host port) as [c|] eqn:Ec.
  { eexists _, c. split; [reflexivity|]. split; [reflexivity|].
    split; [reflexivity | discriminate]. }
  destruct (smtp_login w f pw) as [c|] eqn:El.
  { destruct (smtp_quit w) as [q|].
    - eexists _, q. split; [reflexivity|]. split; [reflexivity|].
      split; [reflexivity | discriminate].
    - eexists _, c. split; [reflexivity|]. split; [reflexivity|].
      split; [reflexivity | discriminate]. }
  destruct (smtp_quit w) as [q|].
  - eexists _, q. split; [reflexivity|]. split; [reflexivity|].
    split; [reflexivity | intros _; split; [reflexivity | eauto]].
  - eexists _, e. split; [reflexivity|]. split; [reflexivity|].
    split; [reflexivity | intros _; split; [reflexivity | eauto]].
Qed.






End ProgramFacts.

Lemma example_body_witness :
  _get_body (friendly sample_environ sample_files) (sample_state "42" "Printer broken") =
    ({| self := sample_ticket "42" "Printer broken"; trace := [EvOpen "template.html"] |},
     Ok "Store: 42, Msg: Printer broken").
Proof.
  apply (example_body (friendly sample_environ sample_files)
           (sample_state "42" "Printer broken") "template.html"); reflexivity.
Defined.

Lemma body_tokens_filled_witness :
  ∃ body,
    _get_body (friendly sample_environ sample_files) (sample_state "42" "Printer broken") =
      ({| self := sample_ticket "42" "Printer broken"; trace := [EvOpen "template.html"] |},
       Ok body) ∧
    contains STORE_NUMBER body = false ∧
    contains SUPPORT_MESSAGE body = false ∧
    template_text (tokenize "Store: STORE_NUMBER, Msg: SUPPORT_MESSAGE") =
      "Store: STORE_NUMBER, Msg: SUPPORT_MESSAGE" ∧
    body = instantiate "42" "Printer broken"
             (tokenize "Store: STORE_NUMBER, Msg: SUPPORT_MESSAGE").
Proof.
  apply (body_tokens_filled (friendly sample_environ sample_files)
           (sample_state "42" "Printer broken") "template.html"); reflexivity.
Defined.

(** C1, as stated, fails: a message that quotes a token brings the token
    into the body. *)
Lemma body_tokens_filled_counterexample :
  _get_body (friendly sample_environ sample_files)
    (sample_state "42" "STORE_NUMBER is not shown") =
    ({| self := sample_ticket "42" "STORE_NUMBER is not shown";
        trace := [EvOpen "template.html"] |},
     Ok "Store: 42, Msg: STORE_NUMBER is not shown") ∧
  contains STORE_NUMBER "Store: 42, Msg: STORE_NUMBER is not shown" = true.
Proof. split; reflexivity. Qed.

Lemma substitutions_in_sequence_witness :
  ∃ body,
    _get_body (friendly sample_environ sample_files)
      (sample_state "A-SUPPORT_MESSAGE-B" "see STORE_NUMBER") =
      ({| self := sample_ticket "A-SUPPORT_MESSAGE-B" "see STORE_NUMBER";
          trace := [EvOpen "template.html"] |}, Ok body) ∧
    body = "Store: A-see STORE_NUMBER-B, Msg: see STORE_NUMBER".
Proof.
  destruct (substitutions_in_sequence (friendly sample_environ sample_files)
              (sample_state "A-SUPPORT_MESSAGE-B" "see STORE_NUMBER")
              "template.html" "Store: STORE_NUMBER, Msg: SUPPORT_MESSAGE"
              "A-SUPPORT_MESSAGE-B" "see STORE_NUMBER"
              eq_refl eq_refl eq_refl eq_refl) as (body & Hrun & Hbody & _).
  exists body. split; [exact Hrun | rewrite Hbody; reflexivity].
Defined.







Lemma missing_template_witness :
  ∃ evs cause,
    create (friendly sample_environ ∅) (sample_state "42" "Printer broken") =
      ({| self := sample_ticket "42" "Printer broken"; trace := [] ++ evs |},
       Raise (TicketCreationError ("Unable to send email: " +:+ str cause))) ∧
    head evs = Some (EvConnect "smtp.example.com" 465) ∧
    existsb is_send evs = false ∧
    (existsb is_file evs = true →
       smtp_connect (friendly sample_environ ∅) "smtp.example.com" 465 = None ∧
       ∃ user password,
         smtp_login (friendly sample_environ ∅) user password = None ∧
         evs = [EvConnect "smtp.example.com" 465; EvLogin user password;
                EvOpen "template.html"; EvQuit]).
Proof.
  apply (missing_template (friendly sample_environ ∅)
           (sample_state "42" "Printer broken") "smtp.example.com" "template.html" 465
           (file_not_found "template.html") (loaded_fully_loaded _ _ _ _ _ _ _ _));
    reflexivity.
Defined.

(** C3, as stated, fails: the template file is not there, and before
    [create] fails the server has been reached and the login made. *)
Lemma missing_template_counterexample :
  create (friendly sample_environ ∅) (sample_state "42" "Printer broken") =
    ({| self := sample_ticket "42" "Printer broken";
        trace := [EvConnect "smtp.example.com" 465;
                  EvLogin "desk@example.com" "secret";
                  EvOpen "template.html"; EvQuit] |},
     Raise (TicketCreationError
              "Unable to send email: [Errno 2] No such file or directory: 'template.html'")) ∧
  is_network (EvConnect "smtp.example.com" 465) = true.
Proof. split; reflexivity. Qed.




(** * More about the program *)

Section ProgramMore.

Variable w : World.

Ltac step_monad :=
  unfold mbind, mret, M_bind, M_ret, raise, try_except, with_exit, emit, attr,
    assign, lift_oracle in *; simpl in *.


(** X2: however the construction ends, it has observed nothing, and the
    store number and the message are set on the object. *)
Theorem construction_quiet (number text : string) (st st' : State) (r : result unit) :
  __init__ w number text st = (st', r) →
  trace st' = trace st ∧
  store_number (self st') = Some number ∧
  message (self st') = Some text.
Proof.
  unfold __init__, _get_env_variables, os_environ, int. step_monad.
  destruct (environ w !! "EMAIL_ADDRESS"); simpl; [| now intros [= <- _]].
  destruct (environ w !! "EMAIL_PASSWORD"); simpl; [| now intros [= <- _]].
  destruct (environ w !! "SMTP_SERVER"); simpl; [| now intros [= <- _]].
  destruct (environ w !! "SMTP_PORT") as [v|]; simpl; [| now intros [= <- _]].
  destruct (Builtins.int v); simpl; [| now intros [= <- _]].
  destruct (environ w !! "TEMPLATE_FILE_PATH"); simpl; [| now intros [= <- _]].
  destruct (environ w !! "SUPPORT_TEAM_EMAIL"); simpl; now intros [= <- _].
Qed.








End ProgramMore.

Lemma construction_quiet_witness :
  trace (fst (__init__ (friendly port_abc_environ sample_files) "42" "Printer broken" initial))
    = [] ∧
  store_number
    (self (fst (__init__ (friendly port_abc_environ sample_files)
                  "42" "Printer broken" initial))) = Some "42" ∧
  message
    (self (fst (__init__ (friendly port_abc_environ sample_files)
                  "42" "Printer broken" initial))) = Some "Printer broken".
Proof.
  apply (construction_quiet (friendly port_abc_environ sample_files)
           "42" "Printer broken" initial _ (Raise (ValueError "abc"))).
  reflexivity.
Defined.








(** * More about the renderer *)

Section RenderMore.

Variables store msg : string.

(** Replacing the message token passes over a store token. *)
Lemma replace_message_over_store (new r : string) :
  replace SUPPORT_MESSAGE new (STORE_NUMBER +:+ r) =
  STORE_NUMBER +:+ replace SUPPORT_MESSAGE new r.
Proof.
  rewrite replace_app.
  - now rewrite (replace_absent SUPPORT_MESSAGE new SUPPORT_MESSAGE_nonempty STORE_NUMBER).
  - exact SUPPORT_MESSAGE_nonempty.
  - intros p q Hin Hq Hold _.
    assert (Hp : String.prefix p (SUPPORT_MESSAGE +:+ "") = true)
      by (rewrite Hold, app_assoc_s; apply prefix_app).
    apply (token_meets STORE_NUMBER SUPPORT_MESSAGE) in Hp;
      [| now left | now right | assumption].
    subst p. apply in_suffixes in Hin as [_ [x Hx]].
    apply (f_equal String.length) in Hx. rewrite length_app_s in Hx.
    simpl in Hx. lia.
Qed.

(** Where an end of the store token starts the text in which the message
    has been filled in, it started the template already. *)
Lemma message_filled_prefix :
  overlap msg STORE_NUMBER = false →
  ∀ t y, In y (suffixes STORE_NUMBER) →
    String.prefix y (replace SUPPORT_MESSAGE msg t) = true →
    String.prefix y t = true.
Proof.
  intros Hov t.
  induction t as [|r IH|r IH|c s H1 H2 IH] using template_ind; intros y Hin H.
  - now rewrite replace_empty in H by exact SUPPORT_MESSAGE_nonempty.
  - rewrite replace_message_over_store in H.
    apply (token_meets STORE_NUMBER STORE_NUMBER) in H;
      [| now left | now left | assumption].
    subst y. apply prefix_app.
  - rewrite replace_hit in H by exact SUPPORT_MESSAGE_nonempty.
    now rewrite (overlap_no_prefix _ _ Hov) in H.
  - rewrite replace_miss in H by (exact SUPPORT_MESSAGE_nonempty || assumption).
    destruct y as [|d y]; [reflexivity|].
    apply prefix_cons_inv in H as [-> H].
    apply prefix_cons. apply suffixes_tail in Hin as [-> | Hin].
    + now destruct s.
    + now apply IH.
Qed.

(** The substitutions made in the other order fill in the pieces too. *)
Lemma message_first_instantiate (t : string) :
  overlap msg STORE_NUMBER = false →
  replace STORE_NUMBER store (replace SUPPORT_MESSAGE msg t) =
  instantiate store msg (tokenize t).
Proof.
  intros Hov.
  induction t as [|r IH|r IH|c s H1 H2 IH] using template_ind.
  - reflexivity.
  - rewrite tokenize_store, replace_message_over_store.
    rewrite replace_hit by exact STORE_NUMBER_nonempty.
    cbn [instantiate]. now rewrite IH.
  - rewrite tokenize_message, replace_hit by exact SUPPORT_MESSAGE_nonempty.
    cbn [instantiate]. rewrite replace_app.
    + rewrite IH. f_equal. apply replace_absent; [exact STORE_NUMBER_nonempty|].
      apply (overlap_not_contained _ _ Hov), STORE_NUMBER_nonempty.
    + exact STORE_NUMBER_nonempty.
    + intros p q Hin _ Hold _.
      destruct (overlap_end_of_value _ _ Hov p Hin) as [_ Hp].
      rewrite Hold, prefix_app in Hp. discriminate.
  - rewrite tokenize_lit by assumption.
    rewrite replace_miss by (exact SUPPORT_MESSAGE_nonempty || assumption).
    rewrite replace_miss.
    + cbn [instantiate]. now rewrite IH.
    + exact STORE_NUMBER_nonempty.
    + destruct (String.prefix STORE_NUMBER
                  (String c (replace SUPPORT_MESSAGE msg s))) eqn:E; [|reflexivity].
      rewrite <- (replace_miss SUPPORT_MESSAGE msg SUPPORT_MESSAGE_nonempty c s H2) in E.
      apply message_filled_prefix in E; [congruence | assumption | now left].
Qed.

(** X10: when the store number does not overlap SUPPORT_MESSAGE and the
    message does not overlap STORE_NUMBER, the order of the two
    substitutions of [_get_body] does not matter. *)
Theorem substitution_order_irrelevant (template : string) :
  overlap store SUPPORT_MESSAGE = false →
  overlap msg STORE_NUMBER = false →
  replace STORE_NUMBER store (replace SUPPORT_MESSAGE msg template) =
  render template store msg.
Proof.
  intros Hs Hm.
  now rewrite (render_instantiate store msg template Hs), (message_first_instantiate template Hm).
Qed.

(** X9: a template that holds no token is the body, whatever the store
    number and the message are. *)
Theorem template_without_tokens (template : string) :
  contains STORE_NUMBER template = false →
  contains SUPPORT_MESSAGE template = false →
  render template store msg = template.
Proof.
  intros H1 H2. unfold render.
  rewrite (replace_absent STORE_NUMBER store STORE_NUMBER_nonempty template H1).
  exact (replace_absent SUPPORT_MESSAGE msg SUPPORT_MESSAGE_nonempty template H2).
Qed.

(** X11: with a store number and a message that overlap no token, the
    body is settled: rendering it again, with any values, changes
    nothing. *)
Theorem rendered_body_stable (template store' msg' : string) :
  plain store = true →
  plain msg = true →
  render (render template store msg) store' msg' = render template store msg.
Proof.
  intros Hs Hm.
  rewrite (render_instantiate store msg template)
    by (apply plain_overlap; [assumption | now right]).
  unfold render at 1.
  rewrite (replace_absent STORE_NUMBER store' STORE_NUMBER_nonempty)
    by (apply filled_token_free; [assumption.. | now left]).
  apply (replace_absent SUPPORT_MESSAGE msg' SUPPORT_MESSAGE_nonempty).
  apply filled_token_free; [assumption.. | now right].
Qed.

(** X12: with a store number that does not overlap SUPPORT_MESSAGE, a
    STORE_NUMBER in the template is exchanged for the store number and
    the text on either side is rendered on its own. *)
Theorem render_around_store (pre post : string) :
  overlap store SUPPORT_MESSAGE = false →
  render (pre +:+ STORE_NUMBER +:+ post) store msg =
  render pre store msg +:+ store +:+ render post store msg.
Proof.
  intros Hov. unfold render.
  rewrite replace_around by now left.
  rewrite replace_app.
  - f_equal. rewrite replace_app.
    + f_equal. apply replace_absent; [exact SUPPORT_MESSAGE_nonempty|].
      apply (overlap_not_contained _ _ Hov), SUPPORT_MESSAGE_nonempty.
    + exact SUPPORT_MESSAGE_nonempty.
    + intros p q Hin _ Hold _.
      destruct (overlap_end_of_value _ _ Hov p Hin) as [_ Hp].
      rewrite Hold, prefix_app in Hp. discriminate.
  - exact SUPPORT_MESSAGE_nonempty.
  - intros p q Hin Hq Hold Hb.
    assert (Hq' : In q (suffixes SUPPORT_MESSAGE))
      by (apply in_suffixes; split; [assumption | now exists p]).
    now rewrite (overlap_no_prefix _ _ Hov q _ Hq') in Hb.
Qed.

End RenderMore.

Lemma substitution_order_irrelevant_witness :
  replace STORE_NUMBER "42"
    (replace SUPPORT_MESSAGE "Printer broken" "Store: STORE_NUMBER, Msg: SUPPORT_MESSAGE") =
  render "Store: STORE_NUMBER, Msg: SUPPORT_MESSAGE" "42" "Printer broken".
Proof.
  apply (substitution_order_irrelevant "42" "Printer broken"); reflexivity.
Defined.

Lemma template_without_tokens_witness :
  render "Store closed, no tokens here" "42" "STORE_NUMBER" = "Store closed, no tokens here".
Proof.
  apply (template_without_tokens "42" "STORE_NUMBER"); reflexivity.
Defined.

Lemma rendered_body_stable_witness :
  render (render "Store: STORE_NUMBER, Msg: SUPPORT_MESSAGE" "42" "Printer broken")
    "7" "SUPPORT_MESSAGE" =
  render "Store: STORE_NUMBER, Msg: SUPPORT_MESSAGE" "42" "Printer broken".
Proof.
  apply (rendered_body_stable "42" "Printer broken"); reflexivity.
Defined.

Lemma render_around_store_witness :
  render ("Store: " +:+ STORE_NUMBER +:+ ", Msg: SUPPORT_MESSAGE") "42" "Printer broken" =
  render "Store: " "42" "Printer broken" +:+ "42"
    +:+ render ", Msg: SUPPORT_MESSAGE" "42" "Printer broken".
Proof.
  apply (render_around_store "42" "Printer broken"); reflexivity.
Defined.
